(** * Tenant registry and command handlers of telegram_forward_bot.py

    A shallow embedding of the module-level dictionary [tenants] and of the
    command handlers [create_tenant], [add_source] and [add_destination],
    followed by the properties of the command layer.

    Conventions of the embedding:
    - Python [int] is [Z], Python [str] is [string] (the UTF-8 bytes of the
      text), a Python [list] is [list];
    - the global [tenants] dict is a [gmap string Tenant]; every value stored
      in it is a freshly built record with two fresh lists, so no two keys
      ever share a list and the map of values models the store;
    - [update.message.reply_text(s)] appends [s] to the list of replies sent
      so far; a handler is a function from the state before to the state
      after;
    - the handlers are modelled on updates that carry a user, a chat and a
      message, which is what the attribute accesses of the source assume. *)

From Stdlib Require Import ZArith String List.
From stdpp Require Import gmap strings list fin_maps.

Local Open Scope Z_scope.
Local Open Scope string_scope.
Local Open Scope list_scope.

(** ** Data *)

(** The value stored under a tenant name: [{"sources": [], "destinations": []}]. *)
Record Tenant : Type := mkTenant {
  sources : list Z;
  destinations : list Z
}.

(** The parts of [telegram.Update] the handlers read:
    [update.effective_user.id] and [update.effective_chat.id]. *)
Record Update : Type := mkUpdate {
  effective_user_id : Z;
  effective_chat_id : Z
}.

(** [context.args]: the words that follow the command. *)
Record Context : Type := mkContext {
  args : list string
}.

(** The state the handlers act on: the global dict and the replies sent. *)
Record Bot : Type := mkBot {
  tenants : gmap string Tenant;
  replies : list string
}.

(** [tenants = {}] at import time, nothing sent yet. *)
Definition initial : Bot := mkBot ∅ [].

(** ** Reply texts, as the string literals of the source *)

Definition denied_text : string := "شما اجازه‌ی این کار را ندارید ❌".
Definition create_usage_text : string := "مثال: /create_tenant ali".
Definition created_text (tenant_name : string) : string :=
  "مستأجر '" +:+ tenant_name +:+ "' ساخته شد ✅".
Definition add_source_usage_text : string := "مثال: /add_source ali".
Definition source_added_text (tenant_name : string) : string :=
  "✅ منبع به '" +:+ tenant_name +:+ "' اضافه شد.".
Definition not_found_text : string := "❌ همچین مستأجری وجود ندارد.".
Definition add_destination_usage_text : string := "مثال: /add_destination ali".

(** Python's [needle in hay] on strings. *)
Fixpoint contains (needle hay : string) : bool :=
  String.prefix needle hay ||
  match hay with
  | EmptyString => false
  | String _ hay' => contains needle hay'
  end.

(** ** Effects *)

(** [await update.message.reply_text(text)]. *)
Definition reply_text (text : string) (st : Bot) : Bot :=
  mkBot (tenants st) (replies st ++ [text]).

(** [tenants[tenant_name] = {"sources": [], "destinations": []}]. *)
Definition store_fresh (tenant_name : string) (st : Bot) : Bot :=
  mkBot (<[tenant_name := mkTenant [] []]> (tenants st)) (replies st).

(** [t["sources"].append(chat_id)] on one record. *)
Definition append_source (chat_id : Z) (t : Tenant) : Tenant :=
  mkTenant (sources t ++ [chat_id]) (destinations t).

(** [t["destinations"].append(chat_id)] on one record. *)
Definition append_destination (chat_id : Z) (t : Tenant) : Tenant :=
  mkTenant (sources t) (destinations t ++ [chat_id]).

(** [tenants[tenant_name][...].append(chat_id)]: the record under
    [tenant_name] is changed in place, every other key is left alone. *)
Definition mutate (f : Tenant → Tenant) (tenant_name : string) (st : Bot) : Bot :=
  mkBot (alter f tenant_name (tenants st)) (replies st).

(** [tenant_name in tenants]. *)
Definition has_tenant (tenant_name : string) (st : Bot) : bool :=
  bool_decide (is_Some (tenants st !! tenant_name)).

(** ** Handlers *)

Section Handlers.

(** [OWNER_USER_ID = OWNER_ID]: the source leaves [OWNER_ID] to be filled in
    with the owner's numeric id, so it is a parameter here. *)
Variable OWNER_USER_ID : Z.

(** Lines 11-22. The test [len(context.args) < 1] followed by
    [context.args[0]] is the case split on the argument list. *)
Definition create_tenant (update : Update) (context : Context) (st : Bot) : Bot :=
  if bool_decide (effective_user_id update ≠ OWNER_USER_ID) then
    reply_text denied_text st
  else
    match args context with
    | [] => reply_text create_usage_text st
    | tenant_name :: _ =>
        reply_text (created_text tenant_name) (store_fresh tenant_name st)
    end.

(** Lines 24-36. [not context.args] followed by [context.args[0]] is the
    case split on the argument list. *)
Definition add_source (update : Update) (context : Context) (st : Bot) : Bot :=
  match args context with
  | [] => reply_text add_source_usage_text st
  | tenant_name :: _ =>
      let chat_id := effective_chat_id update in
      if has_tenant tenant_name st then
        reply_text (source_added_text tenant_name)
                   (mutate (append_source chat_id) tenant_name st)
      else
        reply_text not_found_text st
  end.

(** Modelled from the spec: the body of [add_destination] after line 43 is
    missing from the source, which stops inside
    [chat_id = update.effective_chat.id]. Lines 38-43 (the argument check and
    the read of [context.args[0]]) are translated from the source; the rest
    follows the spec, "symmetric to add_source": it fails, reporting that the
    tenant does not exist, if the name is absent, and otherwise appends the
    chat id to the destinations. The two reply texts of the missing part are
    not known and are parameters. *)
Variable destination_added_text : string → string.
Variable destination_not_found_text : string.

Definition add_destination (update : Update) (context : Context) (st : Bot) : Bot :=
  match args context with
  | [] => reply_text add_destination_usage_text st
  | tenant_name :: _ =>
      let chat_id := effective_chat_id update in
      if has_tenant tenant_name st then
        reply_text (destination_added_text tenant_name)
                   (mutate (append_destination chat_id) tenant_name st)
      else
        reply_text destination_not_found_text st
  end.

(** ** Sequences of invocations *)

(** One incoming command, as the framework hands it to its handler. *)
Inductive Command : Type :=
  | CreateTenant (update : Update) (context : Context)
  | AddSource (update : Update) (context : Context)
  | AddDestination (update : Update) (context : Context).

Definition dispatch (cmd : Command) (st : Bot) : Bot :=
  match cmd with
  | CreateTenant update context => create_tenant update context st
  | AddSource update context => add_source update context st
  | AddDestination update context => add_destination update context st
  end.

(** The handlers run one after the other on the shared state. *)
Definition run (cmds : list Command) (st : Bot) : Bot :=
  foldl (λ st cmd, dispatch cmd st) st cmds.

(** [cmd] is a [/create_tenant n ...] sent by the owner. *)
Definition creates (n : string) (cmd : Command) : Prop :=
  match cmd with
  | CreateTenant update context =>
      effective_user_id update = OWNER_USER_ID ∧ head (args context) = Some n
  | _ => False
  end.

End Handlers.

(** The commands whose handling is in the source from the first line to the
    last: [create_tenant], [add_source], and [add_destination] without
    arguments (lines 38-41; the source stops before the rest of it). *)
Definition in_source (cmd : Command) : bool :=
  match cmd with
  | CreateTenant _ _ => true
  | AddSource _ _ => true
  | AddDestination _ context => bool_decide (args context = [])
  end.

(** [/add_source tenant_name] sent by user [uid], once from each chat of
    [chats], in that order. *)
Definition add_source_from (uid : Z) (tenant_name : string) (chats : list Z)
    : list Command :=
  map (λ c, AddSource (mkUpdate uid c) (mkContext [tenant_name])) chats.


(** ** Basic facts about the effects *)

Lemma tenants_reply_text text st : tenants (reply_text text st) = tenants st.
Proof. reflexivity. Qed.

Lemma replies_reply_text text st :
  replies (reply_text text st) = replies st ++ [text].
Proof. reflexivity. Qed.

Lemma has_tenant_true n st t :
  tenants st !! n = Some t → has_tenant n st = true.
Proof.
  intros H. unfold has_tenant. apply bool_decide_eq_true. by exists t.
Qed.

Lemma has_tenant_false n st :
  tenants st !! n = None → has_tenant n st = false.
Proof.
  intros H. unfold has_tenant. apply bool_decide_eq_false.
  rewrite H. by intros [? ?].
Qed.

Lemma tenants_store_fresh n st :
  tenants (store_fresh n st) = <[n := mkTenant [] []]> (tenants st).
Proof. reflexivity. Qed.

Lemma tenants_mutate f n st :
  tenants (mutate f n st) = alter f n (tenants st).
Proof. reflexivity. Qed.

Lemma alter_absent (f : Tenant → Tenant) n (m : gmap string Tenant) :
  m !! n = None → alter f n m = m.
Proof.
  intros H. apply map_eq. intros k. rewrite lookup_alter.
  case_decide; [subst k; by rewrite H | done].
Qed.

(** ** The handlers, case by case *)

Section Cases.

Variable OWNER_USER_ID : Z.

Lemma create_tenant_not_owner u ctx st :
  effective_user_id u ≠ OWNER_USER_ID →
  create_tenant OWNER_USER_ID u ctx st = reply_text denied_text st.
Proof.
  intros H. unfold create_tenant. by rewrite bool_decide_eq_true_2.
Qed.

Lemma create_tenant_owner u ctx st :
  effective_user_id u = OWNER_USER_ID →
  create_tenant OWNER_USER_ID u ctx st =
    match args ctx with
    | [] => reply_text create_usage_text st
    | n :: _ => reply_text (created_text n) (store_fresh n st)
    end.
Proof.
  intros H. unfold create_tenant. rewrite bool_decide_eq_false_2; [done |].
  by intros Hne.
Qed.

Lemma add_source_present u n rest st t :
  tenants st !! n = Some t →
  add_source u (mkContext (n :: rest)) st =
    reply_text (source_added_text n)
               (mutate (append_source (effective_chat_id u)) n st).
Proof.
  intros H. unfold add_source. simpl. by rewrite (has_tenant_true n st t).
Qed.

Lemma add_source_absent u n rest st :
  tenants st !! n = None →
  add_source u (mkContext (n :: rest)) st = reply_text not_found_text st.
Proof.
  intros H. unfold add_source. simpl. by rewrite has_tenant_false.
Qed.

End Cases.

(** ** Properties of the command layer *)

(** C1. When the owner sends [/create_tenant n ...] and [n] is not a key of
    the registry, the registry afterwards maps [n] to a record with empty
    sources and empty destinations, no other key changes, and the success
    text for [n] is the one reply sent. *)
Theorem create_tenant_fresh (owner : Z) (u : Update) (n : string)
    (rest : list string) (st : Bot) :
  effective_user_id u = owner →
  tenants st !! n = None →
  tenants (create_tenant owner u (mkContext (n :: rest)) st) !! n
    = Some (mkTenant [] []) ∧
  (∀ k, k ≠ n →
     tenants (create_tenant owner u (mkContext (n :: rest)) st) !! k
       = tenants st !! k) ∧
  replies (create_tenant owner u (mkContext (n :: rest)) st)
    = replies st ++ [created_text n].
Proof.
  intros Hu _. rewrite create_tenant_owner by done. simpl.
  split; [apply lookup_insert_eq |].
  split; [| done].
  intros k Hk. by apply lookup_insert_ne.
Qed.

Lemma create_tenant_fresh_witness :
  tenants (create_tenant 42 (mkUpdate 42 555) (mkContext ["ali"]) initial)
    !! "ali" = Some (mkTenant [] []) ∧
  (∀ k, k ≠ "ali" →
     tenants (create_tenant 42 (mkUpdate 42 555) (mkContext ["ali"]) initial)
       !! k = tenants initial !! k) ∧
  replies (create_tenant 42 (mkUpdate 42 555) (mkContext ["ali"]) initial)
    = replies initial ++ [created_text "ali"].
Proof.
  apply (create_tenant_fresh 42 (mkUpdate 42 555) "ali" [] initial);
    reflexivity.
Defined.

(** C2. When [/add_source n ...] arrives from chat [c] and [n] is not a key
    of the registry, the registry is left exactly as it was, the one reply
    sent is the tenant-not-found text, and that text contains
    "وجود ندارد". *)
Theorem add_source_unknown_tenant (uid c : Z) (n : string)
    (rest : list string) (st : Bot) :
  tenants st !! n = None →
  tenants (add_source (mkUpdate uid c) (mkContext (n :: rest)) st)
    = tenants st ∧
  replies (add_source (mkUpdate uid c) (mkContext (n :: rest)) st)
    = replies st ++ [not_found_text] ∧
  contains "وجود ندارد" not_found_text = true.
Proof.
  intros H. rewrite add_source_absent by done. by repeat split.
Qed.

Lemma add_source_unknown_tenant_witness :
  tenants (add_source (mkUpdate 7 555) (mkContext ["ghost"]) initial)
    = tenants initial ∧
  replies (add_source (mkUpdate 7 555) (mkContext ["ghost"]) initial)
    = replies initial ++ [not_found_text] ∧
  contains "وجود ندارد" not_found_text = true.
Proof.
  apply (add_source_unknown_tenant 7 555 "ghost" [] initial). reflexivity.
Defined.

(** C3. When [/add_source n ...] arrives from chat [c] and the registry maps
    [n] to [t], afterwards [n] is mapped to the record whose sources are
    those of [t] followed by [c] and whose destinations are those of [t],
    and every other key is mapped as before. *)
Theorem add_source_appends (uid c : Z) (n : string) (rest : list string)
    (st : Bot) (t : Tenant) :
  tenants st !! n = Some t →
  tenants (add_source (mkUpdate uid c) (mkContext (n :: rest)) st) !! n
    = Some (mkTenant (sources t ++ [c]) (destinations t)) ∧
  (∀ k, k ≠ n →
     tenants (add_source (mkUpdate uid c) (mkContext (n :: rest)) st) !! k
       = tenants st !! k).
Proof.
  intros H. rewrite (add_source_present _ _ _ _ t) by done. simpl.
  split.
  - by rewrite lookup_alter_eq, H.
  - intros k Hk. by apply lookup_alter_ne.
Qed.

Lemma add_source_appends_witness :
  tenants (add_source (mkUpdate 7 555) (mkContext ["ali"])
             (mkBot {[ "ali" := mkTenant [1] [2] ]} [])) !! "ali"
    = Some (mkTenant ([1] ++ [555]) [2]) ∧
  (∀ k, k ≠ "ali" →
     tenants (add_source (mkUpdate 7 555) (mkContext ["ali"])
                (mkBot {[ "ali" := mkTenant [1] [2] ]} [])) !! k
       = tenants (mkBot {[ "ali" := mkTenant [1] [2] ]} []) !! k).
Proof.
  apply (add_source_appends 7 555 "ali" []
           (mkBot {[ "ali" := mkTenant [1] [2] ]} []) (mkTenant [1] [2])).
  reflexivity.
Defined.

(** C4. When a user whose id is not the owner's sends [/create_tenant] with
    any arguments, the registry is left exactly as it was and the one reply
    sent is the permission-denied text. *)
Theorem create_tenant_denied (owner : Z) (u : Update) (ctx : Context)
    (st : Bot) :
  effective_user_id u ≠ owner →
  tenants (create_tenant owner u ctx st) = tenants st ∧
  replies (create_tenant owner u ctx st) = replies st ++ [denied_text].
Proof.
  intros H. by rewrite create_tenant_not_owner.
Qed.

Lemma create_tenant_denied_witness :
  tenants (create_tenant 42 (mkUpdate 7 555) (mkContext ["ali"]) initial)
    = tenants initial ∧
  replies (create_tenant 42 (mkUpdate 7 555) (mkContext ["ali"]) initial)
    = replies initial ++ [denied_text].
Proof.
  apply (create_tenant_denied 42 (mkUpdate 7 555) (mkContext ["ali"]) initial).
  simpl. lia.
Defined.

(** C5. [add_source] never looks at the sender: whatever the user id, when
    [/add_source n ...] arrives from chat [c] (555 in the scenario) and [n]
    is registered with no sources yet, afterwards the sources of [n] are
    exactly [[c]]. The id appended is that of the chat the message came
    from: the words after [n] play no part, and any two senders writing from
    the same chat have the same effect. *)
Theorem add_source_any_user (uid c : Z) (n : string) (rest : list string)
    (st : Bot) (t : Tenant) :
  tenants st !! n = Some t →
  sources t = [] →
  sources <$>
    tenants (add_source (mkUpdate uid c) (mkContext (n :: rest)) st) !! n
    = Some [c] ∧
  (∀ uid' rest',
     add_source (mkUpdate uid' c) (mkContext (n :: rest')) st
       = add_source (mkUpdate uid c) (mkContext (n :: rest)) st).
Proof.
  intros H Hs. split.
  - rewrite (add_source_present _ _ _ _ t) by done. simpl.
    rewrite lookup_alter_eq, H. simpl. by rewrite Hs.
  - intros uid' rest'. by rewrite !(add_source_present _ _ _ _ t).
Qed.

Lemma add_source_any_user_witness :
  sources <$>
    tenants (add_source (mkUpdate 7 555) (mkContext ["ali"])
               (mkBot {[ "ali" := mkTenant [] [] ]} [])) !! "ali"
    = Some [555] ∧
  (∀ uid' rest',
     add_source (mkUpdate uid' 555) (mkContext ("ali" :: rest'))
                (mkBot {[ "ali" := mkTenant [] [] ]} [])
       = add_source (mkUpdate 7 555) (mkContext ["ali"])
                    (mkBot {[ "ali" := mkTenant [] [] ]} [])).
Proof.
  apply (add_source_any_user 7 555 "ali" []
           (mkBot {[ "ali" := mkTenant [] [] ]} []) (mkTenant [] []));
    reflexivity.
Defined.

(** C6. When the owner sends [/create_tenant n ...] and [n] is already
    registered, whatever its record held, afterwards [n] is mapped to a
    record with empty sources and empty destinations; every other key is
    mapped as before. *)
Theorem create_tenant_overwrites (owner : Z) (u : Update) (n : string)
    (rest : list string) (st : Bot) (t : Tenant) :
  effective_user_id u = owner →
  tenants st !! n = Some t →
  tenants (create_tenant owner u (mkContext (n :: rest)) st) !! n
    = Some (mkTenant [] []) ∧
  (∀ k, k ≠ n →
     tenants (create_tenant owner u (mkContext (n :: rest)) st) !! k
       = tenants st !! k).
Proof.
  intros Hu _. rewrite create_tenant_owner by done. simpl.
  split; [apply lookup_insert_eq |].
  intros k Hk. by apply lookup_insert_ne.
Qed.

Lemma create_tenant_overwrites_witness :
  tenants (create_tenant 42 (mkUpdate 42 555) (mkContext ["ali"])
             (mkBot {[ "ali" := mkTenant [1; 2] [3] ]} [])) !! "ali"
    = Some (mkTenant [] []) ∧
  (∀ k, k ≠ "ali" →
     tenants (create_tenant 42 (mkUpdate 42 555) (mkContext ["ali"])
                (mkBot {[ "ali" := mkTenant [1; 2] [3] ]} [])) !! k
       = tenants (mkBot {[ "ali" := mkTenant [1; 2] [3] ]} []) !! k).
Proof.
  apply (create_tenant_overwrites 42 (mkUpdate 42 555) "ali" []
           (mkBot {[ "ali" := mkTenant [1; 2] [3] ]} []) (mkTenant [1; 2] [3]));
    reflexivity.
Defined.

(** *** Reachable registries *)

(** In this part [owner] is the owner's id, and [added] and [rejected] are
    the two reply texts of [add_destination]. *)

Lemma add_destination_absent (added : string → string) (rejected : string)
    u ctx st n :
  head (args ctx) = Some n →
  tenants st !! n = None →
  add_destination added rejected u ctx st = reply_text rejected st.
Proof.
  intros Hh H. unfold add_destination.
  destruct (args ctx) as [| n' rest]; [done |].
  injection Hh as ->. by rewrite has_tenant_false.
Qed.

Lemma run_snoc owner added rejected cmds cmd st :
  run owner added rejected (cmds ++ [cmd]) st
    = dispatch owner added rejected cmd (run owner added rejected cmds st).
Proof. unfold run. by rewrite foldl_app. Qed.

(** [alter] cannot bring in a key. *)
Lemma mutate_absent f n' n st :
  tenants st !! n = None → tenants (mutate f n' st) !! n = None.
Proof.
  intros Hn. rewrite tenants_mutate, lookup_alter.
  case_decide; [subst n'; by rewrite Hn | done].
Qed.

(** A key that a handler leaves behind and that was not there before was
    put there by the owner's [create_tenant]. *)
Lemma dispatch_new_key owner added rejected cmd st n :
  tenants st !! n = None →
  is_Some (tenants (dispatch owner added rejected cmd st) !! n) →
  creates owner n cmd.
Proof.
  intros Hn [t Ht]. destruct cmd as [u ctx | u ctx | u ctx]; simpl in *.
  - unfold create_tenant in Ht. case_bool_decide as Hu.
    + rewrite tenants_reply_text in Ht. congruence.
    + destruct (args ctx) as [| n' rest].
      * rewrite tenants_reply_text in Ht. congruence.
      * rewrite tenants_reply_text, tenants_store_fresh in Ht.
        destruct (decide (n' = n)) as [-> | Hne].
        -- split; [| done].
           by destruct (decide (effective_user_id u = owner)).
        -- rewrite lookup_insert_ne in Ht by done. congruence.
  - unfold add_source in Ht. destruct (args ctx) as [| n' rest].
    + rewrite tenants_reply_text in Ht. congruence.
    + simpl in Ht. destruct (has_tenant n' st).
      * rewrite tenants_reply_text, mutate_absent in Ht by done. congruence.
      * rewrite tenants_reply_text in Ht. congruence.
  - unfold add_destination in Ht. destruct (args ctx) as [| n' rest].
    + rewrite tenants_reply_text in Ht. congruence.
    + simpl in Ht. destruct (has_tenant n' st).
      * rewrite tenants_reply_text, mutate_absent in Ht by done. congruence.
      * rewrite tenants_reply_text in Ht. congruence.
Qed.

(** Every key of a registry reached from the empty one goes back to a first
    [create_tenant] of the owner, before which the key was absent. *)
Lemma key_was_created owner added rejected cmds n :
  is_Some (tenants (run owner added rejected cmds initial) !! n) →
  ∃ pre cmd post,
    cmds = pre ++ cmd :: post ∧
    creates owner n cmd ∧
    tenants (run owner added rejected pre initial) !! n = None.
Proof.
  induction cmds as [| cmd cmds IH] using rev_ind; intros Hs.
  - simpl in Hs. rewrite lookup_empty in Hs. by destruct Hs.
  - rewrite run_snoc in Hs.
    destruct (tenants (run owner added rejected cmds initial) !! n)
      as [t |] eqn:Hbefore.
    + destruct IH as (pre & c & post & -> & Hc & Hpre); [done |].
      exists pre, c, (post ++ [cmd]). by rewrite <- app_assoc.
    + exists cmds, cmd, []. split; [done |]. split; [| done].
      by apply (dispatch_new_key owner added rejected cmd
                  (run owner added rejected cmds initial) n).
Qed.

(** C7. Starting from the empty registry and running any sequence of
    [create_tenant], [add_source] and [add_destination] invocations, a tenant
    whose sources or destinations are not empty was created first: the
    sequence contains a [create_tenant] for that name by the owner, and
    before that command ran the name was absent from the registry. Also,
    [add_source] and [add_destination] naming an absent tenant change
    nothing in the registry and only send the rejection; [add_destination]
    is taken with any two reply texts. *)
Theorem attach_requires_creation (owner : Z) (added : string → string)
    (rejected : string) :
  (∀ (cmds : list Command) (n : string) (t : Tenant),
     tenants (run owner added rejected cmds initial) !! n = Some t →
     sources t ≠ [] ∨ destinations t ≠ [] →
     ∃ pre cmd post,
       cmds = pre ++ cmd :: post ∧
       creates owner n cmd ∧
       tenants (run owner added rejected pre initial) !! n = None) ∧
  (∀ (u : Update) (ctx : Context) (st : Bot) (n : string),
     head (args ctx) = Some n →
     tenants st !! n = None →
     add_source u ctx st = reply_text not_found_text st) ∧
  (∀ (u : Update) (ctx : Context) (st : Bot) (n : string),
     head (args ctx) = Some n →
     tenants st !! n = None →
     add_destination added rejected u ctx st = reply_text rejected st).
Proof.
  split; [| split].
  - intros cmds n t Ht _. apply key_was_created. by exists t.
  - intros u [a] st n Hh H. simpl in Hh.
    destruct a as [| n' rest]; [done |]. injection Hh as ->.
    by apply add_source_absent.
  - intros u ctx st n. apply add_destination_absent.
Qed.

Lemma attach_requires_creation_witness :
  (∃ pre cmd post,
     [CreateTenant (mkUpdate 42 1) (mkContext ["ali"]);
      AddSource (mkUpdate 7 555) (mkContext ["ali"])] = pre ++ cmd :: post ∧
     creates 42 "ali" cmd ∧
     tenants (run 42 (λ _, "ok") "no" pre initial) !! "ali" = None) ∧
  add_source (mkUpdate 7 555) (mkContext ["ghost"]) initial
    = reply_text not_found_text initial ∧
  add_destination (λ _, "ok") "no" (mkUpdate 7 555) (mkContext ["ghost"]) initial
    = reply_text "no" initial.
Proof.
  destruct (attach_requires_creation 42 (λ _, "ok") "no") as (H1 & H2 & H3).
  split; [| split].
  - apply (H1 [CreateTenant (mkUpdate 42 1) (mkContext ["ali"]);
               AddSource (mkUpdate 7 555) (mkContext ["ali"])]
              "ali" (mkTenant [555] [])).
    + reflexivity.
    + left. discriminate.
  - apply (H2 (mkUpdate 7 555) (mkContext ["ghost"]) initial "ghost");
      reflexivity.
  - apply (H3 (mkUpdate 7 555) (mkContext ["ghost"]) initial "ghost");
      reflexivity.
Defined.

(** C8. With no argument after the command, [create_tenant] sent by the
    owner and [add_source] sent by anyone leave the registry exactly as it
    was and reply with their usage example. *)
Theorem no_argument_usage (owner : Z) (u : Update) (ctx : Context) (st : Bot) :
  args ctx = [] →
  (effective_user_id u = owner →
   tenants (create_tenant owner u ctx st) = tenants st ∧
   replies (create_tenant owner u ctx st) = replies st ++ [create_usage_text]) ∧
  tenants (add_source u ctx st) = tenants st ∧
  replies (add_source u ctx st) = replies st ++ [add_source_usage_text].
Proof.
  intros Ha. split.
  - intros Hu. rewrite create_tenant_owner by done. by rewrite Ha.
  - unfold add_source. by rewrite Ha.
Qed.

Lemma no_argument_usage_witness :
  (tenants (create_tenant 42 (mkUpdate 42 555) (mkContext []) initial)
     = tenants initial ∧
   replies (create_tenant 42 (mkUpdate 42 555) (mkContext []) initial)
     = replies initial ++ [create_usage_text]) ∧
  tenants (add_source (mkUpdate 42 555) (mkContext []) initial)
    = tenants initial ∧
  replies (add_source (mkUpdate 42 555) (mkContext []) initial)
    = replies initial ++ [add_source_usage_text].
Proof.
  destruct (no_argument_usage 42 (mkUpdate 42 555) (mkContext []) initial)
    as [Hcreate Hadd]; [reflexivity |].
  split; [apply Hcreate; reflexivity | exact Hadd].
Defined.

(** C9. When [/add_source n ...] arrives twice from chat [c] and [n] is
    registered with record [t], afterwards the sources of [n] are those of
    [t] followed by [c] and [c] again, a list with a repeated entry. *)
Theorem add_source_twice_duplicates (uid c : Z) (n : string)
    (rest : list string) (st : Bot) (t : Tenant) :
  tenants st !! n = Some t →
  sources <$>
    tenants (add_source (mkUpdate uid c) (mkContext (n :: rest))
               (add_source (mkUpdate uid c) (mkContext (n :: rest)) st)) !! n
    = Some (sources t ++ [c; c]) ∧
  ¬ NoDup (sources t ++ [c; c]).
Proof.
  intros H. split.
  - rewrite (add_source_present _ _ _ _ (append_source c t)).
    + rewrite (add_source_present _ _ _ _ t) by done. simpl.
      rewrite !lookup_alter_eq, H. simpl. by rewrite <- app_assoc.
    + rewrite (add_source_present _ _ _ _ t) by done. simpl.
      by rewrite lookup_alter_eq, H.
  - intros Hnd. apply NoDup_app in Hnd as (_ & _ & Hcc).
    apply NoDup_cons in Hcc as [Hin _]. apply Hin. by left.
Qed.

Lemma add_source_twice_duplicates_witness :
  sources <$>
    tenants (add_source (mkUpdate 7 555) (mkContext ["ali"])
               (add_source (mkUpdate 7 555) (mkContext ["ali"])
                  (mkBot {[ "ali" := mkTenant [] [] ]} []))) !! "ali"
    = Some ([] ++ [555; 555]) ∧
  ¬ NoDup ([] ++ [555; 555]).
Proof.
  apply (add_source_twice_duplicates 7 555 "ali" []
           (mkBot {[ "ali" := mkTenant [] [] ]} []) (mkTenant [] [])).
  reflexivity.
Defined.

(** C10. In [create_tenant] the owner check comes first: when a user who is
    not the owner sends [/create_tenant] with no argument, the one reply
    sent is the permission-denied text, which is not the usage example, and
    the registry is left exactly as it was. *)
Theorem create_tenant_owner_check_first (owner : Z) (u : Update) (st : Bot) :
  effective_user_id u ≠ owner →
  replies (create_tenant owner u (mkContext []) st)
    = replies st ++ [denied_text] ∧
  replies (create_tenant owner u (mkContext []) st)
    ≠ replies st ++ [create_usage_text] ∧
  tenants (create_tenant owner u (mkContext []) st) = tenants st.
Proof.
  intros H. rewrite create_tenant_not_owner by done. simpl.
  repeat split. intros Heq. by apply app_inv_head in Heq.
Qed.

Lemma create_tenant_owner_check_first_witness :
  replies (create_tenant 42 (mkUpdate 7 555) (mkContext []) initial)
    = replies initial ++ [denied_text] ∧
  replies (create_tenant 42 (mkUpdate 7 555) (mkContext []) initial)
    ≠ replies initial ++ [create_usage_text] ∧
  tenants (create_tenant 42 (mkUpdate 7 555) (mkContext []) initial)
    = tenants initial.
Proof.
  apply (create_tenant_owner_check_first 42 (mkUpdate 7 555) initial).
  simpl. lia.
Defined.

(** ** Further properties of the handlers *)

(** *** The reply texts *)

Lemma length_append_string a b :
  String.length (a +:+ b) = (String.length a + String.length b)%nat.
Proof. induction a as [| c a IH]; simpl; [done | by rewrite IH]. Qed.

Lemma append_cancel_r a b s : a +:+ s = b +:+ s → a = b.
Proof.
  revert b. induction a as [| c a IH]; intros [| d b] H; simpl in *.
  - done.
  - apply (f_equal String.length) in H.
    rewrite !length_append_string in H. simpl in H. lia.
  - apply (f_equal String.length) in H.
    rewrite !length_append_string in H. simpl in H. lia.
  - injection H as -> H. f_equal. by apply IH.
Qed.

Lemma created_text_inj n m : created_text n = created_text m → n = m.
Proof.
  unfold created_text. intros H. apply String.app_inj in H.
  by apply append_cancel_r in H.
Qed.

Lemma source_added_text_inj n m :
  source_added_text n = source_added_text m → n = m.
Proof.
  unfold source_added_text. intros H. apply String.app_inj in H.
  by apply append_cancel_r in H.
Qed.

Lemma created_text_not_usage n : created_text n ≠ create_usage_text.
Proof. unfold created_text, create_usage_text. simpl. discriminate. Qed.

Lemma created_text_not_denied n : created_text n ≠ denied_text.
Proof. unfold created_text, denied_text. simpl. discriminate. Qed.

Lemma source_added_text_not_found n : source_added_text n ≠ not_found_text.
Proof. unfold source_added_text, not_found_text. simpl. discriminate. Qed.

Lemma source_added_text_not_usage n :
  source_added_text n ≠ add_source_usage_text.
Proof. unfold source_added_text, add_source_usage_text. simpl. discriminate. Qed.

Lemma snoc_eq_inv (l : list string) a b : l ++ [a] = l ++ [b] → a = b.
Proof. intros H. apply app_inv_head in H. by injection H. Qed.




(** *** One invocation *)

Lemma add_source_cases u ctx st :
  (args ctx = [] ∧ add_source u ctx st = reply_text add_source_usage_text st) ∨
  (∃ n rest, args ctx = n :: rest ∧ tenants st !! n = None ∧
     add_source u ctx st = reply_text not_found_text st) ∨
  (∃ n rest t, args ctx = n :: rest ∧ tenants st !! n = Some t ∧
     add_source u ctx st =
       reply_text (source_added_text n)
                  (mutate (append_source (effective_chat_id u)) n st)).
Proof.
  destruct ctx as [[| n rest]]; [by left | right].
  destruct (tenants st !! n) as [t |] eqn:Hn.
  - right. exists n, rest, t. repeat split; [done |].
    by apply add_source_present with t.
  - left. exists n, rest. repeat split; [done |]. by apply add_source_absent.
Qed.

Lemma create_tenant_cases owner u ctx st :
  (effective_user_id u ≠ owner ∧
     create_tenant owner u ctx st = reply_text denied_text st) ∨
  (effective_user_id u = owner ∧ args ctx = [] ∧
     create_tenant owner u ctx st = reply_text create_usage_text st) ∨
  (∃ n rest, effective_user_id u = owner ∧ args ctx = n :: rest ∧
     create_tenant owner u ctx st =
       reply_text (created_text n) (store_fresh n st)).
Proof.
  destruct (decide (effective_user_id u = owner)) as [Hu | Hu].
  - right. rewrite create_tenant_owner by done.
    destruct (args ctx) as [| n rest]; [by left | right]. by exists n, rest.
  - left. split; [done |]. by apply create_tenant_not_owner.
Qed.

Lemma create_tenant_replies owner u ctx st :
  ∃ r, replies (create_tenant owner u ctx st) = replies st ++ [r].
Proof.
  destruct (create_tenant_cases owner u ctx st)
    as [[_ ->] | [(_ & _ & ->) | (n & rest & _ & _ & ->)]]; by eexists.
Qed.

Lemma add_source_replies u ctx st :
  ∃ r, replies (add_source u ctx st) = replies st ++ [r].
Proof.
  destruct (add_source_cases u ctx st)
    as [[_ ->] | [(n & rest & _ & _ & ->) | (n & rest & t & _ & _ & ->)]];
    by eexists.
Qed.

Lemma add_source_dom u ctx st :
  dom (tenants (add_source u ctx st)) = dom (tenants st).
Proof.
  destruct (add_source_cases u ctx st)
    as [[_ ->] | [(n & rest & _ & _ & ->) | (n & rest & t & _ & _ & ->)]];
    simpl; [done | done |]. apply dom_alter_L.
Qed.

Lemma add_destination_empty added rejected u ctx st :
  args ctx = [] →
  add_destination added rejected u ctx st
    = reply_text add_destination_usage_text st.
Proof. intros Ha. unfold add_destination. by rewrite Ha. Qed.

(** X1. Each invocation of [create_tenant] and of [add_source] sends exactly
    one reply, after the replies sent before, whichever branch is taken. *)
Theorem one_reply_per_invocation (owner : Z) (u : Update) (ctx : Context)
    (st : Bot) :
  (∃ r, replies (create_tenant owner u ctx st) = replies st ++ [r]) ∧
  (∃ r, replies (add_source u ctx st) = replies st ++ [r]).
Proof. split; [apply create_tenant_replies | apply add_source_replies]. Qed.

(** X2. The reply of [add_source] tells what happened: for a first argument
    [n], the success text for [n] is sent exactly when [n] was registered,
    and the not-found text exactly when it was not. *)
Theorem add_source_reply_reports_outcome (u : Update) (ctx : Context)
    (st : Bot) (n : string) :
  head (args ctx) = Some n →
  (replies (add_source u ctx st) = replies st ++ [source_added_text n]
     ↔ is_Some (tenants st !! n)) ∧
  (replies (add_source u ctx st) = replies st ++ [not_found_text]
     ↔ tenants st !! n = None).
Proof.
  intros Hh.
  destruct (add_source_cases u ctx st)
    as [[Ha _] | [(m & rest & Ha & Hm & ->) | (m & rest & t & Ha & Hm & ->)]];
    rewrite Ha in Hh; [done | |]; injection Hh as ->; simpl; rewrite Hm.
  - split; split.
    + intros H. apply snoc_eq_inv in H. by destruct (source_added_text_not_found n).
    + by intros [? ?].
    + done.
    + done.
  - split; split.
    + by exists t.
    + done.
    + intros H. apply snoc_eq_inv in H. by destruct (source_added_text_not_found n).
    + done.
Qed.

Lemma add_source_reply_reports_outcome_witness :
  (replies (add_source (mkUpdate 7 555) (mkContext ["ghost"]) initial)
     = replies initial ++ [source_added_text "ghost"]
     ↔ is_Some (tenants initial !! "ghost")) ∧
  (replies (add_source (mkUpdate 7 555) (mkContext ["ghost"]) initial)
     = replies initial ++ [not_found_text]
     ↔ tenants initial !! "ghost" = None).
Proof.
  apply (add_source_reply_reports_outcome (mkUpdate 7 555)
           (mkContext ["ghost"]) initial "ghost").
  reflexivity.
Defined.

(** X3. The reply of [create_tenant] tells what happened: the denial is sent
    exactly to users other than the owner, the usage example exactly to the
    owner writing no argument, and the success text for a name [n] only when
    the owner wrote [n] as first argument, in which case [n] is registered
    with an empty record afterwards. *)
Theorem create_tenant_reply_reports_outcome (owner : Z) (u : Update)
    (ctx : Context) (st : Bot) :
  (replies (create_tenant owner u ctx st) = replies st ++ [denied_text]
     ↔ effective_user_id u ≠ owner) ∧
  (replies (create_tenant owner u ctx st) = replies st ++ [create_usage_text]
     ↔ effective_user_id u = owner ∧ args ctx = []) ∧
  (∀ n, replies (create_tenant owner u ctx st)
          = replies st ++ [created_text n] →
        effective_user_id u = owner ∧ head (args ctx) = Some n ∧
        tenants (create_tenant owner u ctx st) !! n = Some (mkTenant [] [])).
Proof.
  destruct (create_tenant_cases owner u ctx st)
    as [[Hu ->] | [(Hu & Ha & ->) | (m & rest & Hu & Ha & ->)]]; simpl.
  - split; [done |]. split.
    + split; [| by intros [? _]].
      intros H. by apply snoc_eq_inv in H.
    + intros n H. apply snoc_eq_inv in H.
      by destruct (created_text_not_denied n).
  - split; [| split].
    + split; [| done]. intros H. by apply snoc_eq_inv in H.
    + done.
    + intros n H. apply snoc_eq_inv in H.
      by destruct (created_text_not_usage n).
  - split; [| split].
    + split; [| done]. intros H. apply snoc_eq_inv in H.
      by destruct (created_text_not_denied m).
    + split; [| by rewrite Ha; intros [_ ?]].
      intros H. apply snoc_eq_inv in H.
      by destruct (created_text_not_usage m).
    + intros n H. apply snoc_eq_inv, created_text_inj in H. subst m.
      rewrite Ha. split; [done |]. split; [done |]. apply lookup_insert_eq.
Qed.

(** X4. [add_source] neither registers nor removes a tenant: the names in
    the registry are the same before and after, whatever the arguments. *)
Theorem add_source_keeps_names (u : Update) (ctx : Context) (st : Bot) :
  dom (tenants (add_source u ctx st)) = dom (tenants st).
Proof. apply add_source_dom. Qed.

(** X5. [add_source] only ever extends lists of sources: every tenant
    registered before is registered after with the same destinations and
    with sources that start with the sources it had. *)
Theorem add_source_only_extends (u : Update) (ctx : Context) (st : Bot)
    (k : string) (t : Tenant) :
  tenants st !! k = Some t →
  ∃ t', tenants (add_source u ctx st) !! k = Some t' ∧
        destinations t' = destinations t ∧
        sources t `prefix_of` sources t'.
Proof.
  intros Hk.
  destruct (add_source_cases u ctx st)
    as [[_ ->] | [(n & rest & _ & _ & ->) | (n & rest & t0 & _ & Hn & ->)]];
    simpl; [by exists t | by exists t |].
  rewrite lookup_alter. case_decide as Hnk.
  - subst k. rewrite Hk. simpl. eexists. split; [done |].
    split; [done |]. simpl. by apply prefix_app_r.
  - by exists t.
Qed.

Lemma add_source_only_extends_witness :
  ∃ t', tenants (add_source (mkUpdate 7 555) (mkContext ["ali"])
                   (mkBot {[ "ali" := mkTenant [1] [2] ]} [])) !! "ali"
          = Some t' ∧
        destinations t' = destinations (mkTenant [1] [2]) ∧
        sources (mkTenant [1] [2]) `prefix_of` sources t'.
Proof.
  apply (add_source_only_extends (mkUpdate 7 555) (mkContext ["ali"])
           (mkBot {[ "ali" := mkTenant [1] [2] ]} []) "ali" (mkTenant [1] [2])).
  reflexivity.
Defined.

(** X6. Sending the same [create_tenant] twice leaves the registry as
    sending it once does, for every sender and every argument list. *)
Theorem create_tenant_twice (owner : Z) (u : Update) (ctx : Context)
    (st : Bot) :
  tenants (create_tenant owner u ctx (create_tenant owner u ctx st))
    = tenants (create_tenant owner u ctx st).
Proof.
  destruct (create_tenant_cases owner u ctx st)
    as [[Hu Hst] | [(Hu & Ha & Hst) | (m & rest & Hu & Ha & Hst)]].
  - by rewrite create_tenant_not_owner.
  - rewrite create_tenant_owner by done. by rewrite Ha.
  - rewrite create_tenant_owner by done. rewrite Ha, Hst. simpl.
    apply insert_insert_eq.
Qed.

(** X7. A [create_tenant] of the owner for [n] wipes what [add_source] put
    under [n]: running it after an [add_source] for [n] gives the registry
    that running it alone gives. *)
Theorem create_tenant_after_add_source (owner : Z) (u u' : Update) (n : string)
    (rest rest' : list string) (st : Bot) :
  effective_user_id u = owner →
  tenants (create_tenant owner u (mkContext (n :: rest))
             (add_source u' (mkContext (n :: rest')) st))
    = tenants (create_tenant owner u (mkContext (n :: rest)) st).
Proof.
  intros Hu. rewrite !create_tenant_owner by done. simpl.
  destruct (tenants st !! n) as [t |] eqn:Hn.
  - rewrite (add_source_present _ _ _ _ t) by done. simpl.
    apply insert_alter_eq.
  - by rewrite add_source_absent.
Qed.

Lemma create_tenant_after_add_source_witness :
  tenants (create_tenant 42 (mkUpdate 42 1) (mkContext ["ali"])
             (add_source (mkUpdate 7 555) (mkContext ["ali"])
                (mkBot {[ "ali" := mkTenant [1] [2] ]} [])))
    = tenants (create_tenant 42 (mkUpdate 42 1) (mkContext ["ali"])
                 (mkBot {[ "ali" := mkTenant [1] [2] ]} [])).
Proof.
  apply (create_tenant_after_add_source 42 (mkUpdate 42 1) (mkUpdate 7 555)
           "ali" [] [] (mkBot {[ "ali" := mkTenant [1] [2] ]} [])).
  reflexivity.
Defined.

Lemma has_tenant_add_source n u ctx st :
  has_tenant n (add_source u ctx st) = has_tenant n st.
Proof.
  unfold has_tenant. apply bool_decide_ext.
  rewrite <- !elem_of_dom. by rewrite add_source_dom.
Qed.

(** X8. [add_source] invocations for two different tenants do not interfere:
    in either order they leave the same registry. *)
Theorem add_source_commutes (u1 u2 : Update) (n m : string)
    (rest1 rest2 : list string) (st : Bot) :
  n ≠ m →
  tenants (add_source u1 (mkContext (n :: rest1))
             (add_source u2 (mkContext (m :: rest2)) st))
    = tenants (add_source u2 (mkContext (m :: rest2))
                 (add_source u1 (mkContext (n :: rest1)) st)).
Proof.
  intros Hnm.
  unfold add_source at 1 3. simpl. rewrite !has_tenant_add_source.
  unfold add_source. simpl.
  destruct (has_tenant n st), (has_tenant m st); simpl; try done.
  by apply alter_alter_ne.
Qed.

Lemma add_source_commutes_witness :
  tenants (add_source (mkUpdate 7 555) (mkContext ["ali"])
             (add_source (mkUpdate 8 777) (mkContext ["bob"])
                (mkBot {[ "ali" := mkTenant [] [] ]} [])))
    = tenants (add_source (mkUpdate 8 777) (mkContext ["bob"])
                 (add_source (mkUpdate 7 555) (mkContext ["ali"])
                    (mkBot {[ "ali" := mkTenant [] [] ]} []))).
Proof.
  apply (add_source_commutes (mkUpdate 7 555) (mkUpdate 8 777) "ali" "bob"
           [] [] (mkBot {[ "ali" := mkTenant [] [] ]} [])).
  discriminate.
Defined.

(** X9. After the owner's [create_tenant] for [n], an [add_source] for [n]
    from chat [c] leaves [n] with sources [[c]] and no destinations,
    whatever the registry held before. *)
Theorem create_then_add_source (owner uid c : Z) (u : Update) (n : string)
    (rest rest' : list string) (st : Bot) :
  effective_user_id u = owner →
  tenants (add_source (mkUpdate uid c) (mkContext (n :: rest'))
             (create_tenant owner u (mkContext (n :: rest)) st)) !! n
    = Some (mkTenant [c] []).
Proof.
  intros Hu. rewrite create_tenant_owner by done. simpl.
  rewrite (add_source_present _ _ _ _ (mkTenant [] [])).
  - simpl. by rewrite lookup_alter_eq, lookup_insert_eq.
  - simpl. apply lookup_insert_eq.
Qed.

Lemma create_then_add_source_witness :
  tenants (add_source (mkUpdate 7 555) (mkContext ["ali"])
             (create_tenant 42 (mkUpdate 42 1) (mkContext ["ali"]) initial))
    !! "ali"
    = Some (mkTenant [555] []).
Proof.
  apply (create_then_add_source 42 7 555 (mkUpdate 42 1) "ali" [] [] initial).
  reflexivity.
Defined.

(** *** Sequences of invocations *)

Lemma run_cons owner added rejected cmd cmds st :
  run owner added rejected (cmd :: cmds) st
    = run owner added rejected cmds (dispatch owner added rejected cmd st).
Proof. reflexivity. Qed.

(** X10. The sources of a tenant keep the order of arrival: when
    [/add_source n] arrives once from each chat of a list [chats], in that
    order, and [n] is registered with record [t], afterwards the sources of
    [n] are those of [t] followed by [chats], its destinations are those of
    [t], and every other tenant is as before. *)
Theorem add_source_sequence (owner : Z) (added : string → string)
    (rejected : string) (uid : Z) (n : string) (chats : list Z) (st : Bot)
    (t : Tenant) :
  tenants st !! n = Some t →
  tenants (run owner added rejected (add_source_from uid n chats) st) !! n
    = Some (mkTenant (sources t ++ chats) (destinations t)) ∧
  (∀ k, k ≠ n →
     tenants (run owner added rejected (add_source_from uid n chats) st) !! k
       = tenants st !! k).
Proof.
  revert st t. induction chats as [| c chats IH]; intros st t Hn.
  - simpl. rewrite app_nil_r. by destruct t.
  - unfold add_source_from. rewrite map_cons, run_cons. simpl dispatch.
    rewrite (add_source_present _ _ _ _ t) by done.
    destruct (IH (reply_text (source_added_text n)
                    (mutate (append_source c) n st)) (append_source c t))
      as [IHn IHk]; [simpl; by rewrite lookup_alter_eq, Hn |].
    unfold add_source_from in IHn, IHk. simpl in IHn, IHk |- *. split.
    + rewrite IHn. by rewrite <- app_assoc.
    + intros k Hk. rewrite IHk by done. by apply lookup_alter_ne.
Qed.

Lemma add_source_sequence_witness :
  tenants (run 42 (λ _, "ok") "no" (add_source_from 7 "ali" [555; 666; 555])
             (mkBot {[ "ali" := mkTenant [1] [2] ]} [])) !! "ali"
    = Some (mkTenant ([1] ++ [555; 666; 555]) [2]) ∧
  (∀ k, k ≠ "ali" →
     tenants (run 42 (λ _, "ok") "no" (add_source_from 7 "ali" [555; 666; 555])
                (mkBot {[ "ali" := mkTenant [1] [2] ]} [])) !! k
       = tenants (mkBot {[ "ali" := mkTenant [1] [2] ]} []) !! k).
Proof.
  apply (add_source_sequence 42 (λ _, "ok") "no" 7 "ali" [555; 666; 555]
           (mkBot {[ "ali" := mkTenant [1] [2] ]} []) (mkTenant [1] [2])).
  reflexivity.
Defined.

(** X11. Without the owner nothing gets registered: starting from the empty
    registry, after any sequence of [create_tenant], [add_source] and
    argument-less [add_destination] invocations in which no [create_tenant]
    comes from the owner, the registry is still empty. *)
Theorem registry_empty_without_owner (owner : Z) (added : string → string)
    (rejected : string) (cmds : list Command) :
  forallb in_source cmds = true →
  (∀ u ctx, CreateTenant u ctx ∈ cmds → effective_user_id u ≠ owner) →
  tenants (run owner added rejected cmds initial) = ∅.
Proof.
  intros _ Hno. apply map_empty. intros n.
  destruct (tenants (run owner added rejected cmds initial) !! n)
    as [t |] eqn:Hn; [| done].
  destruct (key_was_created owner added rejected cmds n)
    as (pre & cmd & post & -> & Hc & _); [by exists t |].
  destruct cmd as [u ctx | u ctx | u ctx]; simpl in Hc; try done.
  destruct Hc as [Hu _]. destruct (Hno u ctx); [| done].
  apply elem_of_app. right. by left.
Qed.

Lemma registry_empty_without_owner_witness :
  tenants (run 42 (λ _, "ok") "no"
             [CreateTenant (mkUpdate 7 555) (mkContext ["ali"]);
              AddSource (mkUpdate 7 555) (mkContext ["ali"]);
              AddDestination (mkUpdate 7 555) (mkContext [])] initial) = ∅.
Proof.
  apply (registry_empty_without_owner 42 (λ _, "ok") "no"
           [CreateTenant (mkUpdate 7 555) (mkContext ["ali"]);
            AddSource (mkUpdate 7 555) (mkContext ["ali"]);
            AddDestination (mkUpdate 7 555) (mkContext [])]).
  - reflexivity.
  - intros u ctx Hin.
    apply elem_of_cons in Hin as [Heq | Hin].
    + injection Heq as -> _. simpl. lia.
    + apply elem_of_cons in Hin as [Heq | Hin]; [discriminate |].
      apply elem_of_cons in Hin as [Heq | Hin]; [discriminate |].
      by apply elem_of_nil in Hin.
Defined.

Lemma dispatch_in_source_names owner added rejected cmd st :
  in_source cmd = true →
  dom (tenants st) ⊆ dom (tenants (dispatch owner added rejected cmd st)).
Proof.
  intros Hsrc. destruct cmd as [u ctx | u ctx | u ctx]; simpl.
  - destruct (create_tenant_cases owner u ctx st)
      as [[_ ->] | [(_ & _ & ->) | (m & rest & _ & _ & ->)]]; simpl;
      [done | done |]. apply dom_insert_subseteq.
  - by rewrite add_source_dom.
  - simpl in Hsrc. apply bool_decide_eq_true in Hsrc.
    by rewrite add_destination_empty.
Qed.

Lemma dispatch_in_source_replies owner added rejected cmd st :
  in_source cmd = true →
  ∃ r, replies (dispatch owner added rejected cmd st) = replies st ++ [r].
Proof.
  intros Hsrc. destruct cmd as [u ctx | u ctx | u ctx]; simpl.
  - apply create_tenant_replies.
  - apply add_source_replies.
  - simpl in Hsrc. apply bool_decide_eq_true in Hsrc.
    rewrite add_destination_empty by done. by eexists.
Qed.

(** X12. No invocation removes a tenant: after any sequence of
    [create_tenant], [add_source] and argument-less [add_destination]
    invocations, every name that was registered at the start still is. *)
Theorem names_never_removed (owner : Z) (added : string → string)
    (rejected : string) (cmds : list Command) (st : Bot) :
  forallb in_source cmds = true →
  dom (tenants st) ⊆ dom (tenants (run owner added rejected cmds st)).
Proof.
  revert st. induction cmds as [| cmd cmds IH]; intros st Hsrc; [done |].
  simpl in Hsrc. apply andb_true_iff in Hsrc as [Hcmd Hsrc].
  rewrite run_cons. etrans; [| by apply IH].
  by apply dispatch_in_source_names.
Qed.

Lemma names_never_removed_witness :
  dom (tenants (mkBot {[ "ali" := mkTenant [1] [2] ]} []))
    ⊆ dom (tenants (run 42 (λ _, "ok") "no"
                      [CreateTenant (mkUpdate 42 1) (mkContext ["bob"]);
                       AddSource (mkUpdate 7 555) (mkContext ["ali"])]
                      (mkBot {[ "ali" := mkTenant [1] [2] ]} []))).
Proof.
  apply (names_never_removed 42 (λ _, "ok") "no"
           [CreateTenant (mkUpdate 42 1) (mkContext ["bob"]);
            AddSource (mkUpdate 7 555) (mkContext ["ali"])]
           (mkBot {[ "ali" := mkTenant [1] [2] ]} [])).
  reflexivity.
Defined.

(** X13. Replies are never withdrawn and come one per command: after any
    sequence of [create_tenant], [add_source] and argument-less
    [add_destination] invocations, the replies sent are those sent before
    followed by as many new ones as there were invocations. *)
Theorem one_reply_per_command (owner : Z) (added : string → string)
    (rejected : string) (cmds : list Command) (st : Bot) :
  forallb in_source cmds = true →
  ∃ new, replies (run owner added rejected cmds st) = replies st ++ new ∧
         length new = length cmds.
Proof.
  revert st. induction cmds as [| cmd cmds IH]; intros st Hsrc.
  - exists []. by rewrite app_nil_r.
  - simpl in Hsrc. apply andb_true_iff in Hsrc as [Hcmd Hsrc].
    rewrite run_cons.
    destruct (dispatch_in_source_replies owner added rejected cmd st Hcmd)
      as [r Hr].
    destruct (IH (dispatch owner added rejected cmd st) Hsrc)
      as (new & Hnew & Hlen).
    exists (r :: new). split; [| by simpl; rewrite Hlen].
    rewrite Hnew, Hr. by rewrite <- app_assoc.
Qed.

Lemma one_reply_per_command_witness :
  ∃ new, replies (run 42 (λ _, "ok") "no"
                    [CreateTenant (mkUpdate 7 1) (mkContext ["bob"]);
                     AddSource (mkUpdate 7 555) (mkContext [])] initial)
           = replies initial ++ new ∧
         length new
           = length [CreateTenant (mkUpdate 7 1) (mkContext ["bob"]);
                     AddSource (mkUpdate 7 555) (mkContext [])].
Proof.
  apply (one_reply_per_command 42 (λ _, "ok") "no"
           [CreateTenant (mkUpdate 7 1) (mkContext ["bob"]);
            AddSource (mkUpdate 7 555) (mkContext [])] initial).
  reflexivity.
Defined.


(** X15. [create_tenant] removes no tenant and registers at most the one it
    is asked for: every name registered before is registered after, and a
    name registered after was registered before or is the first argument of
    this invocation, sent by the owner. *)
Theorem create_tenant_names (owner : Z) (u : Update) (ctx : Context)
    (st : Bot) :
  dom (tenants st) ⊆ dom (tenants (create_tenant owner u ctx st)) ∧
  (∀ k, k ∈ dom (tenants (create_tenant owner u ctx st)) →
        k ∈ dom (tenants st) ∨
        (effective_user_id u = owner ∧ head (args ctx) = Some k)).
Proof.
  destruct (create_tenant_cases owner u ctx st)
    as [[_ ->] | [(_ & _ & ->) | (m & rest & Hu & Ha & ->)]]; simpl;
    [by split; [| left] | by split; [| left] |].
  split; [apply dom_insert_subseteq |].
  intros k Hk. rewrite dom_insert_L in Hk.
  apply elem_of_union in Hk as [Hk | Hk]; [| by left].
  apply elem_of_singleton in Hk as ->. right. by rewrite Ha.
Qed.
